(** * fkie-cve-make-release: the command line entry point

    A shallow embedding of [src/fkie_cve_make_release/__main__.py]:
    the feed name validator [_feed_name_is_valid], the loop
    [_write_all_feeds] and the entry procedure [cli], together with the
    Python builtins they rely on ([int] on a [str], [str] on an [int],
    [range]).

    The collaborators [repo], [database.CveDatabase], [Feed], [pathlib],
    [datetime.date.today] and [click.echo] are black boxes: every call to
    one of them is a node of a program tree, answered by an arbitrary
    environment, and recorded in a trace. *)

From Stdlib Require Import ZArith List String Ascii Bool Lia Sorted FinFun.
Import ListNotations.

Local Open Scope string_scope.
Local Open Scope Z_scope.

(** ** Python builtins *)

Module Py.

(** Characters.  A [str] is modelled as a [string] whose characters are the
    code points U+0000 .. U+00FF. *)

Definition code (c : ascii) : nat := nat_of_ascii c.

(** Whitespace that [int] skips around a literal: the ASCII characters
    tab, line feed, vertical tab, form feed, carriage return and space,
    and, above U+007F, the Unicode white space of this range, U+0085 and
    U+00A0.  (The separators U+001C .. U+001F are stripped by [str.strip]
    but refused by [int].) *)
Definition is_space (c : ascii) : bool :=
  let n := code c in
  ((9 <=? n) && (n <=? 13) || (n =? 32) || (n =? 133) || (n =? 160))%nat.

(** The value of a decimal digit; no character above U+007F of the range
    is a decimal digit. *)
Definition digit_value (c : ascii) : option Z :=
  let n := code c in
  if ((48 <=? n) && (n <=? 57))%nat then Some (Z.of_nat (n - 48)) else None.

Definition is_underscore (c : ascii) : bool := (code c =? 95)%nat.

Fixpoint lstrip (s : string) : string :=
  match s with
  | String c s' => if is_space c then lstrip s' else s
  | EmptyString => s
  end.

(** What the digit scanner has just read. *)
Inductive prev := Start | Digit | Underscore.

(** The digits of a literal: decimal digits, with single underscores
    allowed between two digits only.  Returns the value, the number of
    digits read and the unread rest; [None] when the literal is empty or an
    underscore is misplaced. *)
Fixpoint scan_digits (p : prev) (acc : Z) (ndigits : nat) (s : string)
  : option (Z * nat * string) :=
  let stop :=
    match p with
    | Digit => Some (acc, ndigits, s)
    | Start | Underscore => None
    end in
  match s with
  | EmptyString => stop
  | String c s' =>
      if is_underscore c then
        match p with
        | Digit => scan_digits Underscore acc ndigits s'
        | Start | Underscore => None
        end
      else
        match digit_value c with
        | Some d => scan_digits Digit (10 * acc + d) (S ndigits) s'
        | None => stop
        end
  end.

(** The length limit on integer string conversion
    ([sys.get_int_max_str_digits()], 4300 unless configured; 0 switches it
    off): a literal of more than 640 digits is refused when its number of
    digits exceeds a non-zero limit. *)
Definition max_str_digits_threshold : nat := 640.

Definition default_max_str_digits : nat := 4300.

Definition exceeds_max_str_digits (max_str_digits ndigits : nat) : bool :=
  ((max_str_digits_threshold <? ndigits) && (0 <? max_str_digits)
   && (max_str_digits <? ndigits))%nat.

Definition split_sign (s : string) : Z * string :=
  match s with
  | String "+"%char s' => (1, s')
  | String "-"%char s' => (-1, s')
  | _ => (1, s)
  end.

(** [int(s)] for a [str] in base 10.  [None] stands for [ValueError]. *)
Definition int (max_str_digits : nat) (s : string) : option Z :=
  let (sign, body) := split_sign (lstrip s) in
  match scan_digits Start 0 0 body with
  | None => None
  | Some (v, ndigits, rest) =>
      if exceeds_max_str_digits max_str_digits ndigits then None
      else
        match lstrip rest with
        | EmptyString => Some (sign * v)
        | String _ _ => None
        end
  end.

(** [str(n)] for an [int]: the decimal digits, most significant first,
    after a minus sign when [n] is negative. *)
Definition digit_char (d : Z) : ascii := ascii_of_nat (48 + Z.to_nat d).

Fixpoint digits_onto (fuel : nat) (n : Z) (acc : string) : string :=
  match fuel with
  | O => acc
  | S fuel' =>
      let acc' := String (digit_char (n mod 10)) acc in
      if n / 10 =? 0 then acc' else digits_onto fuel' (n / 10) acc'
  end.

Definition digits (n : Z) : string :=
  digits_onto (S (Z.to_nat (Z.log2 n))) n "".

Definition str (n : Z) : string :=
  if n <? 0 then String "-"%char (digits (- n)) else digits n.

(** [range(lo, hi)]: the integers from [lo] up to, not including, [hi];
    empty when [hi <= lo]. *)
Definition range (lo hi : Z) : list Z :=
  map (fun i => lo + Z.of_nat i) (seq 0 (Z.to_nat (hi - lo))).

(** [x in xs] on a list of [str]. *)
Definition str_in (x : string) (xs : list string) : bool :=
  existsb (String.eqb x) xs.

End Py.

(** [datetime.date] and [datetime.datetime]: plain records of their fields.
    Python keeps the year of either between [MINYEAR] and [MAXYEAR]. *)
Record dt_date := { year : Z; month : Z; day : Z }.

Record dt_datetime := {
  dt_year : Z; dt_month : Z; dt_day : Z;
  dt_hour : Z; dt_minute : Z; dt_second : Z; dt_microsecond : Z }.

Definition MINYEAR : Z := 1.
Definition MAXYEAR : Z := 9999.

Definition year_in_range (d : dt_date) : Prop := MINYEAR <= year d <= MAXYEAR.

(** [datetime.date()]: the date component of a datetime. *)
Definition datetime_date (d : dt_datetime) : dt_date :=
  {| year := dt_year d; month := dt_month d; day := dt_day d |}.

(** ["%0{width}d" % n]. *)
Definition zero_padded (width : nat) (n : Z) : string :=
  let pad (w : nat) (s : string) :=
    String.concat "" (repeat "0" (w - String.length s)) ++ s in
  if n <? 0 then String "-"%char (pad (width - 1)%nat (Py.digits (- n)))
  else pad width (Py.digits n).

(** [str(d)] for a date: its ISO form, [YYYY-MM-DD]. *)
Definition str_date (d : dt_date) : string :=
  zero_padded 4 (year d) ++ "-" ++ zero_padded 2 (month d) ++ "-"
  ++ zero_padded 2 (day d).

(** ** The collaborators *)

(** [pathlib.Path], by its [str] form. *)
Definition Path := string.

(** Modelled from the spec: [database.CveDatabase] is not part of the
    sources at hand.  It is "an in-memory collection of CVE records as of a
    timestamp" that "exposes its timestamp"; the code reads
    [db.timestamp.year] only. *)
Record CveDatabase := { timestamp : dt_date; records : list string }.

Inductive exn :=
| ClickException (message : string)
| Fatal (description : string).

Inductive Outcome (A : Type) :=
| Returns (a : A)
| Raises (e : exn).
Arguments Returns {A} a.
Arguments Raises {A} e.

(** The calls that leave this module, indexed by the type of what they
    return. *)
Inductive Cmd : Type -> Type :=
| path_exists (p : Path) : Cmd bool
| path_iterdir (p : Path) : Cmd (list Path)
| path_mkdir_exist_ok (p : Path) : Cmd unit
| date_today : Cmd dt_date
| click_echo (message : string) : Cmd unit
| repo_fetch : Cmd unit
| repo_checkout (ts : dt_date) : Cmd unit
| CveDatabase_from_timestamp (ts : dt_date) : Cmd CveDatabase
| Feed_write (dest_dir : Path) (db : CveDatabase) (name : string)
    (xz_preset : Z) : Cmd unit.

(** A finished call as the trace records it: the call and how it ended. *)
Inductive Entry :=
| DidExists (p : Path) (r : Outcome bool)
| DidIterdir (p : Path) (r : Outcome (list Path))
| DidMkdir (p : Path) (r : Outcome unit)
| DidToday (r : Outcome dt_date)
| DidEcho (message : string) (r : Outcome unit)
| DidFetch (r : Outcome unit)
| DidCheckout (ts : dt_date) (r : Outcome unit)
| DidLoad (ts : dt_date) (r : Outcome CveDatabase)
| DidWrite (dest_dir : Path) (db : CveDatabase) (name : string) (xz_preset : Z)
    (r : Outcome unit).

Definition entry_of {R} (c : Cmd R) : Outcome R -> Entry :=
  match c in Cmd R return Outcome R -> Entry with
  | path_exists p => DidExists p
  | path_iterdir p => DidIterdir p
  | path_mkdir_exist_ok p => DidMkdir p
  | date_today => DidToday
  | click_echo m => DidEcho m
  | repo_fetch => DidFetch
  | repo_checkout ts => DidCheckout ts
  | CveDatabase_from_timestamp ts => DidLoad ts
  | Feed_write d db n x => DidWrite d db n x
  end.

(** Programs: trees of calls.  Every call returns or raises; raising ends
    the run. *)
Inductive Prog (A : Type) : Type :=
| Ret (a : A)
| Raise (e : exn)
| Call (R : Type) (c : Cmd R) (k : R -> Prog A).
Arguments Ret {A} a.
Arguments Raise {A} e.
Arguments Call {A R} c k.

Fixpoint bind {A B} (p : Prog A) (f : A -> Prog B) : Prog B :=
  match p with
  | Ret a => f a
  | Raise e => Raise e
  | Call c k => Call c (fun r => bind (k r) f)
  end.

Definition call {R} (c : Cmd R) : Prog R := Call c Ret.

Notation "x <- p ;; q" := (bind p (fun x => q))
  (at level 61, p at next level, right associativity).
Notation "p ;; q" := (bind p (fun _ => q))
  (at level 61, right associativity).

Fixpoint for_each {X} (xs : list X) (body : X -> Prog unit) : Prog unit :=
  match xs with
  | [] => Ret tt
  | x :: xs' => body x ;; for_each xs' body
  end.

(** The environment answers each call, knowing all finished calls before
    it (oldest first). *)
Definition Env := forall R, list Entry -> Cmd R -> Outcome R.

(** A run: the outcome of the program and the trace of its calls, oldest
    first. *)
Fixpoint run {A} (env : Env) (h : list Entry) (p : Prog A)
  : Outcome A * list Entry :=
  match p with
  | Ret a => (Returns a, [])
  | Raise e => (Raises e, [])
  | Call c k =>
      match env _ h c with
      | Returns v =>
          let e := entry_of c (Returns v) in
          let (res, tr) := run env (h ++ [e]) (k v) in (res, e :: tr)
      | Raises x => (Raises x, [entry_of c (Raises x)])
      end
  end.

(** ** The module [__main__] *)

Section Main.

(** The interpreter's limit on integer string conversion, see
    [Py.exceeds_max_str_digits]. *)
Variable max_str_digits : nat.

Definition _feed_name_is_valid (name : string) : bool :=
  if Py.str_in name ["all"; "recent"; "modified"] then true
  else
    match Py.int max_str_digits name with
    | Some year => 1999 <=? year
    | None => false
    end.

Definition _write_all_feeds (path : Path) (db : CveDatabase) (xz_preset : Z)
  : Prog unit :=
  for_each (Py.range 1999 (year (timestamp db) + 1)) (fun year =>
    call (click_echo ("Creating " ++ Py.str year ++ " archive")) ;;
    call (Feed_write path db (Py.str year) xz_preset)) ;;
  call (click_echo "Creating all archive") ;;
  call (Feed_write path db "all" xz_preset) ;;
  call (click_echo "Creating recent archive") ;;
  call (Feed_write path db "recent" xz_preset) ;;
  call (click_echo "Creating modified archive") ;;
  call (Feed_write path db "modified" xz_preset).

(** The messages of the two usage errors. *)
Definition not_empty_message (path : Path) : string :=
  path ++ " exists and is not empty. Please specify a non-existing or empty directory.".

Definition invalid_feed_name_message (feed_name : string) : string :=
  feed_name ++ " is not a valid --feed-name."
  ++ " Please chose either a year after 1999, or from 'all', 'recent', or 'modified'.".

Definition cli (date : option dt_datetime) (path : Path) (fetch : bool)
  (xz_preset : Z) (feed_name : option string) : Prog unit :=
  let fetch := fetch || match date with None => true | Some _ => false end in
  present <- call (path_exists path) ;;
  occupied <-
    (if present
     then entries <- call (path_iterdir path) ;;
          Ret (0 <? Z.of_nat (List.length entries))
     else Ret false) ;;
  (if occupied
   then Raise (ClickException (not_empty_message path))
   else Ret tt) ;;
  match feed_name with
  | Some name =>
      if negb (_feed_name_is_valid name)
      then Raise (ClickException (invalid_feed_name_message name))
      else Ret tt
  | None => Ret tt
  end ;;
  call (path_mkdir_exist_ok path) ;;
  timestamp <-
    match date with
    | None => call date_today
    | Some date => Ret (datetime_date date)
    end ;;
  (if fetch
   then call (click_echo "Fetching repository") ;; call repo_fetch
   else Ret tt) ;;
  call (click_echo ("Checking out repository for timestamp " ++ str_date timestamp)) ;;
  call (repo_checkout timestamp) ;;
  db <- call (CveDatabase_from_timestamp timestamp) ;;
  match feed_name with
  | None => _write_all_feeds path db xz_preset
  | Some name =>
      call (click_echo ("Creating " ++ name ++ " archive")) ;;
      call (Feed_write path db name xz_preset)
  end.

End Main.

(** ** Reading a trace *)

(** The feed names of a snapshot year, as the spec lists them: every year
    from 1999 through [y], then [all], [recent], [modified]. *)
Definition feed_names (y : Z) : list string :=
  map Py.str (Py.range 1999 (y + 1)) ++ ["all"; "recent"; "modified"].

(** The names of the feed-write calls of a trace, in call order. *)
Definition written_names (tr : list Entry) : list string :=
  flat_map (fun e =>
    match e with
    | DidWrite _ _ name _ _ => [name]
    | _ => []
    end) tr.

Definition returned (e : Entry) : bool :=
  match e with
  | DidExists _ (Returns _) | DidIterdir _ (Returns _) | DidMkdir _ (Returns _)
  | DidToday (Returns _) | DidEcho _ (Returns _) | DidFetch (Returns _)
  | DidCheckout _ (Returns _) | DidLoad _ (Returns _)
  | DidWrite _ _ _ _ (Returns _) => true
  | _ => false
  end.

(** The stage of the pipeline a call belongs to: sync, checkout, load and
    feed write; none for the checks on the output directory, the clock and
    the messages. *)
Definition stage (e : Entry) : option nat :=
  match e with
  | DidFetch _ => Some 1%nat
  | DidCheckout _ _ => Some 2%nat
  | DidLoad _ _ => Some 3%nat
  | DidWrite _ _ _ _ _ => Some 4%nat
  | _ => None
  end.

(** Work: creating the directory, or a call of one of the four stages. *)
Definition is_work (e : Entry) : bool :=
  match e with
  | DidMkdir _ _ | DidFetch _ | DidCheckout _ _ | DidLoad _ _
  | DidWrite _ _ _ _ _ => true
  | _ => false
  end.

(** The look at the output directory that opens every run. *)
Definition is_probe (e : Entry) : bool :=
  match e with
  | DidExists _ _ | DidIterdir _ _ => true
  | _ => false
  end.

Definition is_fetch (e : Entry) : bool :=
  match e with DidFetch _ => true | _ => false end.

(** The calls of the feed loop: a message or a feed write. *)
Definition is_feed_call (e : Entry) : bool :=
  match e with
  | DidEcho _ _ | DidWrite _ _ _ _ _ => true
  | _ => false
  end.

(** Two calls, the first made before the second, respect the order of the
    stages: the stage of the first comes strictly before that of the
    second, unless both are feed writes. *)
Definition in_order (e1 e2 : Entry) : Prop :=
  forall s1 s2, stage e1 = Some s1 -> stage e2 = Some s2 ->
    (s1 < s2 \/ (s1 = 4 /\ s2 = 4))%nat.

(** Every call but the last one of the trace returned. *)
Fixpoint only_last_may_raise (tr : list Entry) : Prop :=
  match tr with
  | [] => True
  | e :: tr' => (tr' = [] \/ returned e = true) /\ only_last_may_raise tr'
  end.

(** One feed of the loop, and a sequence of feeds. *)
Definition creating (name : string) : string := "Creating " ++ name ++ " archive".

Definition write_feed (path : Path) (db : CveDatabase) (xz_preset : Z)
  (name : string) : Prog unit :=
  call (click_echo (creating name)) ;;
  call (Feed_write path db name xz_preset).

Definition write_feeds (path : Path) (db : CveDatabase) (xz_preset : Z)
  (names : list string) : Prog unit :=
  for_each names (write_feed path db xz_preset).

(** The traces of [write_feeds]: each feed is announced and written, and
    the first call that raises ends the sequence. *)
Inductive feeds_run (path : Path) (db : CveDatabase) (xz_preset : Z)
  : list string -> Outcome unit -> list Entry -> Prop :=
| feeds_done : feeds_run path db xz_preset [] (Returns tt) []
| feeds_echo_raises name names e :
    feeds_run path db xz_preset (name :: names) (Raises e)
      [DidEcho (creating name) (Raises e)]
| feeds_write_raises name names e :
    feeds_run path db xz_preset (name :: names) (Raises e)
      [DidEcho (creating name) (Returns tt);
       DidWrite path db name xz_preset (Raises e)]
| feeds_next name names res tr :
    feeds_run path db xz_preset names res tr ->
    feeds_run path db xz_preset (name :: names) res
      (DidEcho (creating name) (Returns tt)
       :: DidWrite path db name xz_preset (Returns tt) :: tr).

(** The order of the stages as an automaton over traces.  A phase tells
    how far the pipeline has come; a call that raises stops the run. *)
Inductive Phase := Preparing | Synced | CheckedOut | Loaded | Stopped.

Definition advance (p : Phase) (e : Entry) : option Phase :=
  match p, stage e with
  | Stopped, _ => None
  | _, None => Some p
  | Preparing, Some 1%nat => Some Synced
  | (Preparing | Synced), Some 2%nat => Some CheckedOut
  | CheckedOut, Some 3%nat => Some Loaded
  | Loaded, Some 4%nat => Some Loaded
  | _, Some _ => None
  end.

Definition step_phase (p : Phase) (e : Entry) : option Phase :=
  match advance p e with
  | Some p' => Some (if returned e then p' else Stopped)
  | None => None
  end.

Fixpoint follows (p : Phase) (tr : list Entry) : bool :=
  match tr with
  | [] => true
  | e :: tr' =>
      match step_phase p e with
      | Some p' => follows p' tr'
      | None => false
      end
  end.

(** The last stage a phase has behind it. *)
Definition rank (p : Phase) : nat :=
  match p with
  | Preparing => 0
  | Synced => 1
  | CheckedOut => 2
  | Loaded => 3
  | Stopped => 4
  end.

(** An environment in which nothing fails: the output directory does not
    exist, and the database loaded for a timestamp carries it. *)
Definition quiet_env (today : dt_date) (cves : list string) : Env :=
  fun R _ c =>
    match c in Cmd R return Outcome R with
    | path_exists _ => Returns false
    | path_iterdir _ => Returns []
    | path_mkdir_exist_ok _ => Returns tt
    | date_today => Returns today
    | click_echo _ => Returns tt
    | repo_fetch => Returns tt
    | repo_checkout _ => Returns tt
    | CveDatabase_from_timestamp ts =>
        Returns {| timestamp := ts; records := cves |}
    | Feed_write _ _ _ _ => Returns tt
    end.

(** An environment in which the output directory holds one entry. *)
Definition occupied_env (today : dt_date) (entry : Path) : Env :=
  fun R h c =>
    match c in Cmd R return Outcome R with
    | path_exists _ => Returns true
    | path_iterdir _ => Returns [entry]
    | c' => quiet_env today [] _ h c'
    end.

(** The exception a call raised, if it did. *)
Definition raised (c : Entry) : option exn :=
  match c with
  | DidExists _ (Raises x) | DidIterdir _ (Raises x) | DidMkdir _ (Raises x)
  | DidToday (Raises x) | DidEcho _ (Raises x) | DidFetch (Raises x)
  | DidCheckout _ (Raises x) | DidLoad _ (Raises x)
  | DidWrite _ _ _ _ (Raises x) => Some x
  | _ => None
  end.

Definition is_stage (c : Entry) : bool :=
  match stage c with Some _ => true | None => false end.

Definition is_checkout (c : Entry) : bool :=
  match c with DidCheckout _ _ => true | _ => false end.

Definition is_today (c : Entry) : bool :=
  match c with DidToday _ => true | _ => false end.

(** The output directory has been created; the repository has been
    synced. *)
Definition created (c : Entry) : bool :=
  match c with DidMkdir _ (Returns _) => true | _ => false end.

Definition synced (c : Entry) : bool :=
  match c with DidFetch (Returns _) => true | _ => false end.

(** No call that satisfies [q] comes before the first call that satisfies
    [p]. *)
Fixpoint guarded (p q : Entry -> bool) (tr : list Entry) : bool :=
  match tr with
  | [] => true
  | c :: tr' => negb (q c) && (p c || guarded p q tr')
  end.

(** The message [cli] prints before a call. *)
Definition announcement (c : Entry) : option string :=
  match c with
  | DidFetch _ => Some "Fetching repository"
  | DidCheckout ts _ =>
      Some ("Checking out repository for timestamp " ++ str_date ts)
  | DidWrite _ _ name _ _ => Some (creating name)
  | _ => None
  end.

(** Every call with an announcement comes right after the [click.echo] of
    it; [last] is the call before the trace. *)
Fixpoint announced (last : option Entry) (tr : list Entry) : Prop :=
  match tr with
  | [] => True
  | c :: tr' =>
      match announcement c with
      | Some message => last = Some (DidEcho message (Returns tt))
      | None => True
      end
      /\ announced (Some c) tr'
  end.

(** An environment in which writing the feed [bad] fails, and nothing
    else does. *)
Definition full_disk_env (today : dt_date) (bad : string) : Env :=
  fun R h c =>
    match c in Cmd R return Outcome R with
    | Feed_write d db name x =>
        if String.eqb name bad then Raises (Fatal "No space left on device")
        else Returns tt
    | c' => quiet_env today [] _ h c'
    end.

(** Sample values for the examples: a snapshot day, and a [--date] before
    the first feed year. *)
Definition a_day : dt_date := {| year := 2001; month := 3; day := 9 |}.

Definition an_early_date : dt_datetime :=
  {| dt_year := 1997; dt_month := 6; dt_day := 15;
     dt_hour := 0; dt_minute := 0; dt_second := 0; dt_microsecond := 0 |}.

(** ** Facts about the builtins *)

Section Characters.

Lemma digit_value_bounds (c : ascii) (d : Z) :
  Py.digit_value c = Some d ->
  (48 <= Py.code c <= 57)%nat /\ d = Z.of_nat (Py.code c - 48).
Proof.
  unfold Py.digit_value.
  destruct ((48 <=? Py.code c) && (Py.code c <=? 57))%nat eqn:E; [|discriminate].
  intros [= <-]. apply andb_true_iff in E as [E1 E2].
  apply Nat.leb_le in E1, E2. auto.
Qed.

Lemma digit_not_space (c : ascii) (d : Z) :
  Py.digit_value c = Some d -> Py.is_space c = false.
Proof.
  intros H. apply digit_value_bounds in H as [[H1 H2] _].
  unfold Py.is_space. cbv zeta.
  repeat rewrite orb_false_iff. rewrite andb_false_iff.
  repeat split; try (apply Nat.eqb_neq; lia).
  right. apply Nat.leb_gt. lia.
Qed.

Lemma digit_not_underscore (c : ascii) (d : Z) :
  Py.digit_value c = Some d -> Py.is_underscore c = false.
Proof.
  intros H. apply digit_value_bounds in H as [[H1 H2] _].
  apply Nat.eqb_neq. lia.
Qed.

Lemma split_sign_other (c : ascii) (s : string) :
  Py.code c <> 43%nat -> Py.code c <> 45%nat ->
  Py.split_sign (String c s) = (1, String c s).
Proof.
  intros H1 H2.
  destruct c as [[] [] [] [] [] [] [] []]; try reflexivity;
    exfalso; [apply H1 | apply H2]; reflexivity.
Qed.

Lemma split_sign_digit (c : ascii) (d : Z) (s : string) :
  Py.digit_value c = Some d -> Py.split_sign (String c s) = (1, String c s).
Proof.
  intros H. apply digit_value_bounds in H as [[H1 H2] _].
  apply split_sign_other; lia.
Qed.

Lemma digit_value_char (d : Z) :
  0 <= d < 10 -> Py.digit_value (Py.digit_char d) = Some d.
Proof.
  intros H.
  assert (d = 0 \/ d = 1 \/ d = 2 \/ d = 3 \/ d = 4 \/ d = 5 \/ d = 6
          \/ d = 7 \/ d = 8 \/ d = 9) as Hd by lia.
  repeat (destruct Hd as [-> | Hd]; [reflexivity|]). subst d. reflexivity.
Qed.

End Characters.

(** The value the digit scanner accumulates over a run of digits. *)
Fixpoint digits_val (acc : Z) (s : string) : Z :=
  match s with
  | EmptyString => acc
  | String c s' =>
      match Py.digit_value c with
      | Some d => digits_val (10 * acc + d) s'
      | None => acc
      end
  end.

Fixpoint all_digits (s : string) : Prop :=
  match s with
  | EmptyString => True
  | String c s' => (exists d, Py.digit_value c = Some d) /\ all_digits s'
  end.

Section Decimal.

Lemma scan_digits_all (s : string) : forall acc n,
  all_digits s ->
  Py.scan_digits Py.Digit acc n s
  = Some (digits_val acc s, (n + String.length s)%nat, "").
Proof.
  induction s as [|c s IH]; intros acc n H; simpl.
  - now rewrite Nat.add_0_r.
  - destruct H as [[d Hd] Hs].
    rewrite (digit_not_underscore c d Hd), Hd, IH by assumption.
    now rewrite Nat.add_succ_r.
Qed.

Lemma scan_digits_start (c : ascii) (d : Z) (s : string) acc n :
  Py.digit_value c = Some d ->
  Py.scan_digits Py.Start acc n (String c s)
  = Py.scan_digits Py.Digit (10 * acc + d) (S n) s.
Proof.
  intros Hd. simpl. now rewrite (digit_not_underscore c d Hd), Hd.
Qed.

Lemma digits_onto_all_digits (fuel : nat) : forall n acc,
  0 <= n -> all_digits acc -> all_digits (Py.digits_onto fuel n acc).
Proof.
  induction fuel as [|fuel IH]; intros n acc Hn Hacc; simpl; [assumption|].
  assert (all_digits (String (Py.digit_char (n mod 10)) acc)) as Hacc'.
  { split; [|assumption]. exists (n mod 10).
    apply digit_value_char, Z.mod_pos_bound. lia. }
  destruct (n / 10 =? 0); [assumption|].
  apply IH; [apply Z.div_pos; lia | assumption].
Qed.

Lemma digits_onto_length (fuel : nat) : forall n acc,
  (String.length acc + Nat.min 1 fuel
   <= String.length (Py.digits_onto fuel n acc)
   <= String.length acc + fuel)%nat.
Proof.
  induction fuel as [|fuel IH]; intros n acc; simpl; [lia|].
  destruct (n / 10 =? 0); simpl; [lia|].
  specialize (IH (n / 10) (String (Py.digit_char (n mod 10)) acc)).
  simpl in IH. lia.
Qed.

Lemma digits_onto_val (fuel : nat) : forall n acc,
  0 < n < 2 ^ Z.of_nat fuel ->
  digits_val 0 (Py.digits_onto fuel n acc) = digits_val n acc.
Proof.
  induction fuel as [|fuel IH]; intros n acc Hn.
  - simpl in Hn. lia.
  - cbn [Py.digits_onto]. cbv zeta.
    assert (Py.digit_value (Py.digit_char (n mod 10)) = Some (n mod 10)) as Hd
      by (apply digit_value_char, Z.mod_pos_bound; lia).
    assert (n = 10 * (n / 10) + n mod 10) as Hdiv by (apply Z.div_mod; lia).
    destruct (n / 10 =? 0) eqn:E.
    + apply Z.eqb_eq in E. cbn [digits_val]. rewrite Hd. f_equal. lia.
    + apply Z.eqb_neq in E.
      assert (0 <= n / 10) by (apply Z.div_pos; lia).
      rewrite IH.
      * cbn [digits_val]. rewrite Hd. f_equal. lia.
      * rewrite Nat2Z.inj_succ, Z.pow_succ_r in Hn by lia.
        split; [lia|]. apply Z.div_lt_upper_bound; lia.
Qed.

Lemma digits_fuel (n : Z) :
  0 < n -> n < 2 ^ Z.of_nat (S (Z.to_nat (Z.log2 n))).
Proof.
  intros Hn. rewrite Nat2Z.inj_succ, Z2Nat.id by apply Z.log2_nonneg.
  apply Z.log2_spec. assumption.
Qed.

Lemma digits_spec (n : Z) :
  0 <= n ->
  exists c d s,
    Py.digits n = String c s /\ Py.digit_value c = Some d
    /\ all_digits s /\ digits_val d s = n.
Proof.
  intros Hn.
  assert (all_digits (Py.digits n)) as Hall
    by (apply digits_onto_all_digits; [assumption | exact I]).
  assert (digits_val 0 (Py.digits n) = n) as Hval.
  { destruct (Z.eq_dec n 0) as [-> | Hnz]; [reflexivity|].
    unfold Py.digits. rewrite digits_onto_val; [reflexivity|].
    split; [lia | apply digits_fuel; lia]. }
  pose proof (digits_onto_length (S (Z.to_nat (Z.log2 n))) n "") as Hlen.
  fold (Py.digits n) in Hlen.
  destruct (Py.digits n) as [|c s]; [simpl in Hlen; lia|].
  destruct Hall as [[d Hd] Hs]. exists c, d, s.
  simpl in Hval. rewrite Hd in Hval. simpl in Hval. auto.
Qed.

Lemma int_digit_string (max_str_digits : nat) (c : ascii) (d : Z) (s : string) :
  Py.digit_value c = Some d -> all_digits s ->
  Py.int max_str_digits (String c s)
  = (if Py.exceeds_max_str_digits max_str_digits (String.length (String c s))
     then None else Some (digits_val d s))
  /\ Py.int max_str_digits (String "-"%char (String c s))
  = (if Py.exceeds_max_str_digits max_str_digits (String.length (String c s))
     then None else Some (- digits_val d s)).
Proof.
  intros Hd Hs.
  assert (Py.scan_digits Py.Start 0 0 (String c s)
          = Some (digits_val d s, String.length (String c s), "")) as Hscan.
  { rewrite (scan_digits_start c d s 0 0 Hd), scan_digits_all by assumption.
    reflexivity. }
  split; unfold Py.int.
  - cbn [Py.lstrip]. rewrite (digit_not_space c d Hd).
    rewrite (split_sign_digit c d _ Hd). cbv beta iota. rewrite Hscan.
    destruct (Py.exceeds_max_str_digits _ _); [reflexivity|].
    cbn [Py.lstrip]. f_equal; lia.
  - change (Py.lstrip (String "-"%char (String c s)))
      with (String "-"%char (String c s)).
    change (Py.split_sign (String "-"%char (String c s)))
      with (-1, String c s).
    cbv beta iota. rewrite Hscan.
    destruct (Py.exceeds_max_str_digits _ _); [reflexivity|].
    cbn [Py.lstrip]. f_equal; lia.
Qed.

(** [int] reads back what [str] prints, unless the digits are too many. *)
Lemma int_str (max_str_digits : nat) (n : Z) :
  Py.int max_str_digits (Py.str n)
  = if Py.exceeds_max_str_digits max_str_digits
         (String.length (Py.digits (Z.abs n)))
    then None else Some n.
Proof.
  unfold Py.str. destruct (n <? 0) eqn:E.
  - apply Z.ltb_lt in E. rewrite Z.abs_neq by lia.
    destruct (digits_spec (- n) ltac:(lia)) as (c & d & s & -> & Hd & Hs & Hval).
    destruct (int_digit_string max_str_digits c d s Hd Hs) as [_ ->].
    rewrite Hval. destruct (Py.exceeds_max_str_digits _ _); [reflexivity|].
    f_equal. lia.
  - apply Z.ltb_ge in E. rewrite Z.abs_eq by lia.
    destruct (digits_spec n ltac:(lia)) as (c & d & s & -> & Hd & Hs & Hval).
    destruct (int_digit_string max_str_digits c d s Hd Hs) as [-> _].
    now rewrite Hval.
Qed.

Lemma digits_short (max_str_digits : nat) (n : Z) :
  0 <= n < 2 ^ 640 ->
  Py.exceeds_max_str_digits max_str_digits (String.length (Py.digits n)) = false.
Proof.
  intros Hn. unfold Py.exceeds_max_str_digits.
  replace (Py.max_str_digits_threshold <? String.length (Py.digits n))%nat
    with false; [reflexivity|].
  symmetry. apply Nat.ltb_ge.
  pose proof (digits_onto_length (S (Z.to_nat (Z.log2 n))) n "") as [_ H].
  fold (Py.digits n) in H. simpl String.length in H.
  unfold Py.max_str_digits_threshold.
  enough (Z.log2 n < 640) by lia.
  destruct (Z.eq_dec n 0) as [-> | Hnz]; [reflexivity|].
  apply Z.log2_lt_pow2; lia.
Qed.

(** [int(str(n))] is [n] for every [n] of at most 640 bits, whatever the
    limit. *)
Lemma int_str_small (max_str_digits : nat) (n : Z) :
  Z.abs n < 2 ^ 640 -> Py.int max_str_digits (Py.str n) = Some n.
Proof.
  intros Hn. rewrite int_str, digits_short; [reflexivity | lia].
Qed.

End Decimal.

(** [int], [str] and [range] on a few inputs. *)
Example int_examples :
  Py.int Py.default_max_str_digits " 2000 " = Some 2000
  /\ Py.int Py.default_max_str_digits "+2000" = Some 2000
  /\ Py.int Py.default_max_str_digits "-2000" = Some (-2000)
  /\ Py.int Py.default_max_str_digits "2_000" = Some 2000
  /\ Py.int Py.default_max_str_digits "02000" = Some 2000
  /\ Py.int Py.default_max_str_digits "_2000" = None
  /\ Py.int Py.default_max_str_digits "2000_" = None
  /\ Py.int Py.default_max_str_digits "2__000" = None
  /\ Py.int Py.default_max_str_digits "+ 2000" = None
  /\ Py.int Py.default_max_str_digits "" = None
  /\ Py.int Py.default_max_str_digits "all" = None.
Proof. repeat split; reflexivity. Qed.

Example str_examples :
  Py.str 2020 = "2020" /\ Py.str 0 = "0" /\ Py.str (-17) = "-17"
  /\ Py.str 10000 = "10000".
Proof. repeat split; reflexivity. Qed.

Example range_examples :
  Py.range 1999 2003 = [1999; 2000; 2001; 2002] /\ Py.range 1999 1998 = [].
Proof. split; reflexivity. Qed.

Example feed_names_2001 :
  feed_names 2001 = ["1999"; "2000"; "2001"; "all"; "recent"; "modified"].
Proof. reflexivity. Qed.

(** ** Facts about runs *)

Arguments creating : simpl never.
Arguments str_date : simpl never.
Arguments _write_all_feeds : simpl never.
Arguments write_feeds : simpl never.
Arguments _feed_name_is_valid : simpl never.
Arguments Py.str : simpl never.
Arguments String.append : simpl never.

(** Splits on the answer of the environment to the next call of the run. *)
Ltac answer env :=
  match goal with
  | |- context [env ?R ?h ?c] =>
      let r := fresh "r" in
      destruct (env R h c) as [r|?];
      [ lazymatch type of r with
        | bool => destruct r
        | unit => destruct r
        | list _ => destruct r
        | _ => idtac
        end | ]; cbn
  end.

Section Runs.

Variable env : Env.

Lemma run_bind {A B} (p : Prog A) (f : A -> Prog B) : forall h,
  run env h (bind p f)
  = match run env h p with
    | (Returns a, tr) =>
        let (res, tr') := run env (h ++ tr) (f a) in (res, (tr ++ tr')%list)
    | (Raises e, tr) => (Raises e, tr)
    end.
Proof.
  induction p as [a|e|R c k IH]; intros h; simpl.
  - rewrite app_nil_r. now destruct (run env h (f a)).
  - reflexivity.
  - destruct (env R h c) as [v|x]; [|reflexivity].
    rewrite IH.
    destruct (run env (h ++ [entry_of c (Returns v)]) (k v)) as [[a|e] tr];
      [|reflexivity].
    rewrite <- app_assoc. simpl.
    now destruct (run env (h ++ entry_of c (Returns v) :: tr) (f a)).
Qed.

Lemma run_bind_assoc {A B C} (p : Prog A) (f : A -> Prog B) (g : B -> Prog C) :
  forall h,
  run env h (bind (bind p f) g) = run env h (bind p (fun a => bind (f a) g)).
Proof.
  induction p as [a|e|R c k IH]; intros h; simpl; try reflexivity.
  destruct (env R h c) as [v|x]; [|reflexivity]. now rewrite IH.
Qed.

Lemma run_bind_ext {A B} (p : Prog A) (f g : A -> Prog B) :
  (forall a h, run env h (f a) = run env h (g a)) ->
  forall h, run env h (bind p f) = run env h (bind p g).
Proof.
  intros H h. rewrite !run_bind.
  destruct (run env h p) as [[a|e] tr]; [|reflexivity]. now rewrite H.
Qed.

Lemma for_each_map {X Y} (f : X -> Y) (g : Y -> Prog unit) (xs : list X) :
  for_each (map f xs) g = for_each xs (fun x => g (f x)).
Proof.
  induction xs as [|x xs IH]; simpl; [reflexivity|]. now rewrite IH.
Qed.

Lemma run_for_each_app {X} (g : X -> Prog unit) (xs ys : list X) : forall h,
  run env h (for_each (xs ++ ys) g)
  = run env h (for_each xs g ;; for_each ys g).
Proof.
  induction xs as [|x xs IH]; intros h; simpl; [reflexivity|].
  rewrite run_bind_assoc. apply run_bind_ext. intros _ h'. apply IH.
Qed.

(** The loop of [_write_all_feeds] and the three writes after it are one
    sequence of feeds, over [feed_names]. *)
Lemma run_write_all_feeds (path : Path) (db : CveDatabase) (xz_preset : Z) :
  forall h,
  run env h (_write_all_feeds path db xz_preset)
  = run env h (write_feeds path db xz_preset (feed_names (year (timestamp db)))).
Proof.
  intros h. unfold _write_all_feeds, write_feeds, feed_names.
  rewrite run_for_each_app, for_each_map.
  apply run_bind_ext. intros _ h'. cbn. cbv [creating String.append].
  repeat (answer env; try reflexivity).
Qed.

Lemma run_write_feeds (path : Path) (db : CveDatabase) (xz_preset : Z)
  (names : list string) : forall h,
  feeds_run path db xz_preset names
    (fst (run env h (write_feeds path db xz_preset names)))
    (snd (run env h (write_feeds path db xz_preset names))).
Proof.
  unfold write_feeds.
  induction names as [|name names IH]; intros h; cbn; [constructor|].
  answer env; [|constructor].
  answer env; [|constructor].
  match goal with |- context [run env ?h' ?p] =>
    specialize (IH h'); destruct (run env h' p) as [res tr] end.
  cbn in *. now constructor.
Qed.

End Runs.

(** ** The order of the stages *)

Section Order.

Lemma feeds_run_follows path db xz names res tr :
  feeds_run path db xz names res tr -> follows Loaded tr = true.
Proof. induction 1; cbn; auto. Qed.

Lemma follows_only_last_may_raise (tr : list Entry) : forall p,
  follows p tr = true -> only_last_may_raise tr.
Proof.
  induction tr as [|e tr IH]; intros p H; cbn in *; [exact I|].
  unfold step_phase in H. destruct (advance p e) as [p'|]; [|discriminate].
  split; [|eauto].
  destruct (returned e); [now right|].
  destruct tr as [|e' tr]; [now left|]. cbn in H. discriminate.
Qed.

Lemma advance_rank (p p' : Phase) (e : Entry) :
  advance p e = Some p' ->
  (rank p <= rank p')%nat
  /\ forall s, stage e = Some s ->
       (rank p < s)%nat /\ (rank p' = s \/ (s = 4 /\ p' = Loaded))%nat.
Proof.
  unfold advance.
  destruct p, (stage e) as [[|[|[|[|[|s]]]]]|]; intros [= <-]; cbn;
    (split; [lia|]); intros s' [= <-]; lia || (split; [lia|auto]).
Qed.

Lemma follows_above (tr : list Entry) : forall p,
  follows p tr = true ->
  Forall (fun e => forall s, stage e = Some s -> (rank p < s)%nat) tr.
Proof.
  induction tr as [|e tr IH]; intros p H; cbn in *; constructor.
  - unfold step_phase in H. destruct (advance p e) as [p'|] eqn:E; [|discriminate].
    intros s Hs. now apply (advance_rank p p' e E).
  - unfold step_phase in H. destruct (advance p e) as [p'|] eqn:E; [|discriminate].
    destruct (advance_rank p p' e E) as [Hle _].
    destruct (returned e).
    + eapply Forall_impl; [|apply (IH p' H)]. cbn. intros a Ha s Hs.
      specialize (Ha s Hs). lia.
    + destruct tr; [constructor|discriminate].
Qed.

Lemma follows_sorted (tr : list Entry) : forall p,
  follows p tr = true -> StronglySorted in_order tr.
Proof.
  induction tr as [|e tr IH]; intros p H; [constructor|].
  cbn in H. unfold step_phase in H.
  destruct (advance p e) as [p'|] eqn:E; [|discriminate].
  destruct (returned e);
    [|destruct tr; [repeat constructor|discriminate]].
  constructor; [eauto|].
  pose proof (follows_above tr p' H) as Habove.
  eapply Forall_impl; [|exact Habove]. cbn. intros e2 H2 s1 s2 Hs1 Hs2.
  specialize (H2 s2 Hs2).
  destruct (advance_rank p p' e E) as [_ Hr].
  destruct (Hr s1 Hs1) as [_ [Hr1 | [-> ->]]].
  - left. lia.
  - cbn in H2. destruct e2; cbn in Hs2; try discriminate; injection Hs2 as <-;
      (lia || (right; lia)).
Qed.

End Order.

(** Every write comes after a load that returned, and every load after a
    checkout that returned. *)
Lemma step_phase_loaded (p : Phase) (e : Entry) :
  step_phase p e = Some Loaded ->
  p = Loaded \/ exists ts db, e = DidLoad ts (Returns db).
Proof.
  unfold step_phase, advance.
  destruct p, e as [? []|? []|? []|[]|? []|[]|? []|? []|? ? ? ? []]; cbn;
    intros [=]; eauto.
Qed.

Lemma step_phase_checked_out (p : Phase) (e : Entry) :
  step_phase p e = Some CheckedOut ->
  p = CheckedOut \/ exists ts, e = DidCheckout ts (Returns tt).
Proof.
  unfold step_phase, advance.
  destruct p, e as [? []|? []|? []|[]|? []|[]|? [[]|]|? []|? ? ? ? []]; cbn;
    intros [=]; eauto.
Qed.

Lemma advance_stage (p p' : Phase) (e : Entry) :
  advance p e = Some p' ->
  (stage e = Some 4%nat -> p = Loaded)
  /\ (stage e = Some 3%nat -> p = CheckedOut).
Proof.
  unfold advance.
  destruct p, (stage e) as [[|[|[|[|[|s]]]]]|]; intros [=]; split; intros [=];
    reflexivity.
Qed.

Lemma follows_preceded (tr : list Entry) : forall p pre e post,
  follows p tr = true -> tr = (pre ++ e :: post)%list ->
  (stage e = Some 4%nat ->
   p = Loaded \/ exists ts db, In (DidLoad ts (Returns db)) pre)
  /\ (stage e = Some 3%nat ->
      p = CheckedOut \/ exists ts, In (DidCheckout ts (Returns tt)) pre).
Proof.
  induction tr as [|a tr IH]; intros p pre e post H Htr.
  - destruct pre; discriminate.
  - cbn in H. destruct (step_phase p a) as [p'|] eqn:E; [|discriminate].
    destruct pre as [|a' pre]; cbn in Htr; injection Htr as -> ->.
    + unfold step_phase in E. destruct (advance p e) as [q|] eqn:Ea; [|discriminate].
      destruct (advance_stage p q e Ea). split; auto.
    + destruct (IH p' pre e post H eq_refl) as [H4 H3]. split; intros Hs.
      * destruct (H4 Hs) as [-> | (ts & db & Hin)].
        -- destruct (step_phase_loaded p a' E) as [-> | (ts & db & ->)];
             [now left | right; exists ts, db; now left].
        -- right. exists ts, db. now right.
      * destruct (H3 Hs) as [-> | (ts & Hin)].
        -- destruct (step_phase_checked_out p a' E) as [-> | (ts & ->)];
             [now left | right; exists ts; now left].
        -- right. exists ts. now right.
Qed.

(** ** Feed name validation *)

Section Validation.

Variable max_str_digits : nat.

Lemma str_in_iff (x : string) (xs : list string) :
  Py.str_in x xs = true <-> In x xs.
Proof.
  unfold Py.str_in. rewrite existsb_exists. split.
  - intros (y & Hy & E). apply String.eqb_eq in E. now subst.
  - intros H. exists x. split; [assumption | apply String.eqb_refl].
Qed.

(** What [str] prints starts with a digit or a minus sign, so it is none of
    the three literals. *)
Lemma str_not_literal (n : Z) :
  Py.str_in (Py.str n) ["all"; "recent"; "modified"] = false.
Proof.
  destruct (Py.str_in _ _) eqn:E; [|reflexivity].
  apply str_in_iff in E. unfold Py.str in E.
  destruct (n <? 0) eqn:Hn.
  - cbn in E. destruct E as [E|[E|[E|[]]]]; discriminate.
  - apply Z.ltb_ge in Hn.
    destruct (digits_spec n Hn) as (c & d & s & Hc & Hd & _).
    rewrite Hc in E.
    cbn in E. destruct E as [E|[E|[E|[]]]]; injection E as <- _; discriminate.
Qed.

Lemma valid_str (y : Z) :
  Z.abs y < 2 ^ 640 -> _feed_name_is_valid max_str_digits (Py.str y) = (1999 <=? y).
Proof.
  intros Hy. unfold _feed_name_is_valid.
  now rewrite str_not_literal, int_str_small.
Qed.

Lemma valid_iff (name : string) :
  _feed_name_is_valid max_str_digits name = true
  <-> In name ["all"; "recent"; "modified"]
      \/ exists y, Py.int max_str_digits name = Some y /\ 1999 <= y.
Proof.
  unfold _feed_name_is_valid.
  destruct (Py.str_in name _) eqn:E.
  - apply str_in_iff in E. tauto.
  - assert (~ In name ["all"; "recent"; "modified"]) as Hn
      by (rewrite <- str_in_iff, E; discriminate).
    destruct (Py.int max_str_digits name) as [y|].
    + rewrite Z.leb_le. split.
      * intros H. right. now exists y.
      * intros [H | (y' & [= <-] & H)]; [contradiction | assumption].
    + split; [discriminate|]. intros [H | (y & [=] & _)]. contradiction.
Qed.

Lemma in_range (lo hi x : Z) : In x (Py.range lo hi) <-> lo <= x < hi.
Proof.
  unfold Py.range. rewrite in_map_iff. split.
  - intros (i & <- & Hi). apply in_seq in Hi. lia.
  - intros H. exists (Z.to_nat (x - lo)). split; [lia|]. apply in_seq. lia.
Qed.

Lemma in_feed_names (y : Z) (name : string) :
  In name (feed_names y)
  <-> (exists x, 1999 <= x <= y /\ name = Py.str x)
      \/ In name ["all"; "recent"; "modified"].
Proof.
  unfold feed_names. rewrite in_app_iff, in_map_iff.
  split; (intros [(x & H1 & H2) | H]; [left | now right]).
  - exists x. apply in_range in H2. split; [lia | now symmetry].
  - exists x. split; [now symmetry | apply in_range; lia].
Qed.

Lemma feed_names_valid (y : Z) (name : string) :
  y <= MAXYEAR -> In name (feed_names y) -> _feed_name_is_valid max_str_digits name = true.
Proof.
  intros Hy H. apply in_feed_names in H as [(x & Hx & ->) | H].
  - rewrite valid_str; [apply Z.leb_le; lia|].
    unfold MAXYEAR in Hy. rewrite Z.abs_eq by lia.
    apply Z.le_lt_trans with 9999; [lia | reflexivity].
  - apply valid_iff. now left.
Qed.

End Validation.

(** ** The feed loop *)

Section Feeds.

Context {path : Path} {db : CveDatabase} {xz_preset : Z}.

Lemma feeds_run_calls names res tr :
  feeds_run path db xz_preset names res tr ->
  Forall (fun e => is_feed_call e = true) tr.
Proof. induction 1; repeat constructor; assumption. Qed.

Lemma feeds_run_in names res tr e :
  feeds_run path db xz_preset names res tr -> In e tr -> is_feed_call e = true.
Proof.
  intros H. pose proof (feeds_run_calls _ _ _ H) as Hall.
  rewrite Forall_forall in Hall. apply Hall.
Qed.

(** The names written are the names asked for, up to the call that
    raised. *)
Lemma feeds_run_written names res tr :
  feeds_run path db xz_preset names res tr ->
  exists later,
    names = (written_names tr ++ later)%list
    /\ (res = Returns tt -> later = []).
Proof.
  induction 1 as [|name names e|name names e|name names res tr H (later & IH1 & IH2)].
  - exists []. auto.
  - exists (name :: names). split; [reflexivity | discriminate].
  - exists names. split; [reflexivity | discriminate].
  - exists later. split; [cbn; f_equal; exact IH1 | assumption].
Qed.

Lemma feeds_run_returned names tr :
  feeds_run path db xz_preset names (Returns tt) tr -> written_names tr = names.
Proof.
  intros H. destruct (feeds_run_written _ _ _ H) as (later & -> & Hl).
  rewrite (Hl eq_refl). now rewrite app_nil_r.
Qed.

Lemma feeds_run_written_in names res tr name :
  feeds_run path db xz_preset names res tr ->
  In name (written_names tr) -> In name names.
Proof.
  intros H Hin. destruct (feeds_run_written _ _ _ H) as (later & -> & _).
  apply in_or_app. now left.
Qed.

End Feeds.

(** Case analysis over a run of [cli]: the options given, then the answers
    of the environment call by call; the feed loop is summarised by
    [feeds_run]. *)
Ltac feeds env :=
  match goal with
  | |- context [run env ?h (_write_all_feeds ?path ?db ?xz)] =>
      rewrite (run_write_all_feeds env path db xz h);
      let H := fresh "Hfeeds" in
      pose proof (run_write_feeds env path db xz
                    (feed_names (year (timestamp db))) h) as H;
      let res := fresh "res" in
      let tr := fresh "tr" in
      destruct (run env h (write_feeds path db xz
                             (feed_names (year (timestamp db)))))
        as [res tr];
      cbn in H |- *
  end.

Ltac cli_cases env max_str_digits :=
  unfold cli;
  repeat match goal with
  | date : option dt_datetime |- _ => destruct date as [?date|]
  | fetch : bool |- _ => destruct fetch
  | feed_name : option string |- _ =>
      let name := fresh "name" in
      let V := fresh "Hvalid" in
      destruct feed_name as [name|];
      [destruct (_feed_name_is_valid max_str_digits name) eqn:V|]
  end;
  cbn;
  repeat answer env;
  try feeds env.

(** Membership in a leaf trace: the head calls one by one, then the feed
    loop. *)
Ltac in_trace H :=
  cbn in H;
  repeat (destruct H as [H|H]; [try discriminate H|]);
  try contradiction;
  try match goal with
      | F : feeds_run _ _ _ _ _ ?tr |- _ =>
          match type of H with
          | In _ tr => apply (feeds_run_in _ _ _ _ F) in H; discriminate H
          end
      end.

Lemma cli_follows env max_str_digits date path fetch xz_preset feed_name :
  follows Preparing
    (snd (run env [] (cli max_str_digits date path fetch xz_preset feed_name)))
  = true.
Proof.
  cli_cases env max_str_digits; try reflexivity;
    eapply feeds_run_follows; eassumption.
Qed.

(** ** The claims about feed name validation *)

(** C1, as stated, fails: with the current year 2026, validation accepts
    ["10000"] and ["02000"], which are neither one of the years from 1999
    through the current year nor one of the three literals. *)
Lemma validation_accepts_unlisted_names :
  _feed_name_is_valid Py.default_max_str_digits "10000" = true
  /\ ~ In "10000" (feed_names 2026)
  /\ _feed_name_is_valid Py.default_max_str_digits "02000" = true
  /\ ~ In "02000" (feed_names 2026).
Proof.
  repeat split; try reflexivity;
    intros H; apply str_in_iff in H; vm_compute in H; discriminate H.
Qed.

(** C1, amended: validation accepts a name exactly when it is one of [all],
    [recent], [modified], or [int] reads it as an integer of at least 1999.
    Every name the spec lists for a current year (the years from 1999
    through it and the three literals) is accepted, and the decimal form of
    a year before 1999 is rejected. *)
Theorem feed_name_validation (max_str_digits : nat) :
  (forall name,
     _feed_name_is_valid max_str_digits name = true
     <-> In name ["all"; "recent"; "modified"]
         \/ exists y, Py.int max_str_digits name = Some y /\ 1999 <= y)
  /\ (forall current_year name,
        current_year <= MAXYEAR ->
        In name (feed_names current_year) ->
        _feed_name_is_valid max_str_digits name = true)
  /\ (forall y,
        MINYEAR <= y < 1999 ->
        _feed_name_is_valid max_str_digits (Py.str y) = false).
Proof.
  split; [apply valid_iff|]. split; [apply feed_names_valid|].
  intros y Hy. unfold MINYEAR in Hy. rewrite valid_str.
  - apply Z.leb_gt. lia.
  - rewrite Z.abs_eq by lia. apply Z.lt_trans with 1999; [lia | reflexivity].
Qed.

(** C8: validation accepts every name that [int] reads as an integer of at
    least 1999; nothing bounds the integer from above or asks for four
    digits.  ["10000"] and ["02000"] are accepted, and so is every year
    after the snapshot year. *)
Theorem validation_has_no_upper_bound (max_str_digits : nat) :
  (forall name y,
     Py.int max_str_digits name = Some y -> 1999 <= y ->
     _feed_name_is_valid max_str_digits name = true)
  /\ _feed_name_is_valid max_str_digits "10000" = true
  /\ _feed_name_is_valid max_str_digits "02000" = true
  /\ (forall (snapshot : dt_date) y,
        year snapshot < y -> 1999 <= y < 2 ^ 640 ->
        _feed_name_is_valid max_str_digits (Py.str y) = true).
Proof.
  split; [|split; [reflexivity|split; [reflexivity|]]].
  - intros name y Hint Hy. apply valid_iff. right. now exists y.
  - intros snapshot y _ Hy. rewrite valid_str.
    + apply Z.leb_le. lia.
    + rewrite Z.abs_eq; lia.
Qed.

(** ** The claims about runs *)

(** A member of a concrete trace. *)
Ltac found := cbn; solve [repeat (first [left; reflexivity | right])].

Ltac occurs :=
  solve [repeat (first [apply Exists_cons_hd; reflexivity
                       | apply Exists_cons_tl])].

(** C3: when the output path exists and holds at least one entry, the run
    stops with the usage error for a non-empty directory after these two
    looks at the path: no directory is created, and no sync, checkout, load
    or feed write is made. *)
Theorem occupied_output_aborts max_str_digits (env : Env) date path fetch
  xz_preset feed_name entry entries :
  env _ [] (path_exists path) = Returns true ->
  env _ [DidExists path (Returns true)] (path_iterdir path)
  = Returns (entry :: entries) ->
  run env [] (cli max_str_digits date path fetch xz_preset feed_name)
  = (Raises (ClickException (not_empty_message path)),
     [DidExists path (Returns true);
      DidIterdir path (Returns (entry :: entries))])
  /\ Forall (fun e => is_work e = false)
       (snd (run env [] (cli max_str_digits date path fetch xz_preset feed_name))).
Proof.
  intros H1 H2. unfold cli. cbn. rewrite H1. cbn. rewrite H2. cbn.
  split; [reflexivity | repeat constructor].
Qed.

Lemma occupied_output_aborts_witness :
  run (occupied_env a_day "CVE-1999.json.xz") []
    (cli Py.default_max_str_digits None "out" true 9 None)
  = (Raises (ClickException (not_empty_message "out")),
     [DidExists "out" (Returns true);
      DidIterdir "out" (Returns ["CVE-1999.json.xz"])])
  /\ Forall (fun e => is_work e = false)
       (snd (run (occupied_env a_day "CVE-1999.json.xz") []
               (cli Py.default_max_str_digits None "out" true 9 None))).
Proof.
  apply (occupied_output_aborts Py.default_max_str_digits
           (occupied_env a_day "CVE-1999.json.xz") None "out" true 9 None
           "CVE-1999.json.xz" []); reflexivity.
Defined.

(** C4: when [--feed-name] is given and fails validation, the run raises
    before any work: its trace holds nothing but the looks at the output
    path, so no directory is created and nothing is synced, checked out,
    loaded or written.  The error is the usage error naming the feed name
    when the directory is absent or empty, the usage error for a non-empty
    directory when it is not, and otherwise the error of the look at the
    path that failed. *)
Theorem invalid_feed_name_aborts max_str_digits (env : Env) date path fetch
  xz_preset name :
  _feed_name_is_valid max_str_digits name = false ->
  exists e tr,
    run env [] (cli max_str_digits date path fetch xz_preset (Some name))
    = (Raises e, tr)
    /\ Forall (fun c => is_probe c = true) tr
    /\ Forall (fun c => is_work c = false) tr
    /\ (((tr = [DidExists path (Returns false)]
          \/ tr = [DidExists path (Returns true); DidIterdir path (Returns [])])
         /\ e = ClickException (invalid_feed_name_message name))
        \/ ((exists entry entries,
               tr = [DidExists path (Returns true);
                     DidIterdir path (Returns (entry :: entries))])
            /\ e = ClickException (not_empty_message path))
        \/ (tr = [DidExists path (Raises e)]
            \/ tr = [DidExists path (Returns true); DidIterdir path (Raises e)])).
Proof.
  intros Hv. unfold cli. rewrite Hv. cbn.
  repeat answer env;
    do 2 eexists; (split; [reflexivity|]);
    (split; [repeat constructor|]); (split; [repeat constructor|]).
  all: first
    [ left; split; [first [left; reflexivity | right; reflexivity] | reflexivity]
    | right; left; split; [do 2 eexists; reflexivity | reflexivity]
    | right; right; first [left; reflexivity | right; reflexivity] ].
Qed.

Lemma invalid_feed_name_aborts_witness :
  exists e tr,
    run (quiet_env a_day []) []
      (cli Py.default_max_str_digits None "out" false 9 (Some "1998"))
    = (Raises e, tr)
    /\ Forall (fun c => is_probe c = true) tr
    /\ Forall (fun c => is_work c = false) tr
    /\ (((tr = [DidExists "out" (Returns false)]
          \/ tr = [DidExists "out" (Returns true); DidIterdir "out" (Returns [])])
         /\ e = ClickException (invalid_feed_name_message "1998"))
        \/ ((exists entry entries,
               tr = [DidExists "out" (Returns true);
                     DidIterdir "out" (Returns (entry :: entries))])
            /\ e = ClickException (not_empty_message "out"))
        \/ (tr = [DidExists "out" (Raises e)]
            \/ tr = [DidExists "out" (Returns true); DidIterdir "out" (Raises e)])).
Proof.
  apply (invalid_feed_name_aborts Py.default_max_str_digits
           (quiet_env a_day []) None "out" false 9 "1998").
  reflexivity.
Defined.

(** C5: in a run without [--date], whether or not [--fetch] was passed, a
    sync call is made unless an error has ended the run before the first
    stage; every checkout and every load is made for the date the clock
    answered, the checkout after a sync that returned; and a run that
    returns has synced, checked out and loaded for that date. *)
Theorem no_date_fetches_and_uses_today max_str_digits (env : Env) path fetch
  xz_preset feed_name :
  let res := fst (run env [] (cli max_str_digits None path fetch xz_preset feed_name)) in
  let tr := snd (run env [] (cli max_str_digits None path fetch xz_preset feed_name)) in
  (Exists (fun e => is_fetch e = true) tr
   \/ (exists e, res = Raises e) /\ Forall (fun e => stage e = None) tr)
  /\ (forall ts r,
        In (DidCheckout ts r) tr ->
        In (DidToday (Returns ts)) tr /\ In (DidFetch (Returns tt)) tr)
  /\ (forall ts r, In (DidLoad ts r) tr -> In (DidToday (Returns ts)) tr)
  /\ (res = Returns tt ->
      exists ts db,
        In (DidToday (Returns ts)) tr /\ In (DidFetch (Returns tt)) tr
        /\ In (DidCheckout ts (Returns tt)) tr
        /\ In (DidLoad ts (Returns db)) tr).
Proof.
  cbv zeta. cli_cases env max_str_digits.
  all: split;
    [first [left; occurs
           | right; split; [eexists; reflexivity | repeat constructor]]|].
  all: split;
    [intros ts r' H; in_trace H; injection H as <- <-; split; found|].
  all: split; [intros ts r' H; in_trace H; injection H as <- <-; found|].
  all: try discriminate.
  all: intros _; do 2 eexists; repeat split; found.
Qed.

(** C6: in a run with [--date] and without [--fetch], no sync call is made;
    every checkout is made for the date component of the given datetime,
    and it is made unless an error has ended the run before the first
    stage. *)
Theorem explicit_date_skips_fetch max_str_digits (env : Env) date path
  xz_preset feed_name :
  let res := fst (run env [] (cli max_str_digits (Some date) path false xz_preset feed_name)) in
  let tr := snd (run env [] (cli max_str_digits (Some date) path false xz_preset feed_name)) in
  Forall (fun e => is_fetch e = false) tr
  /\ (forall ts r, In (DidCheckout ts r) tr -> ts = datetime_date date)
  /\ ((exists r, In (DidCheckout (datetime_date date) r) tr)
      \/ (exists e, res = Raises e) /\ Forall (fun e => stage e = None) tr)
  /\ (res = Returns tt -> In (DidCheckout (datetime_date date) (Returns tt)) tr).
Proof.
  cbv zeta. cli_cases env max_str_digits.
  all: split;
    [repeat (constructor; [reflexivity|]);
     first [constructor
           | eapply Forall_impl; [|eapply feeds_run_calls; eassumption];
             intros [] E; (reflexivity || discriminate E)]|].
  all: split; [intros ts r' H; in_trace H; now injection H as <- <-|].
  all: split;
    [first [left; eexists; found
           | right; split; [eexists; reflexivity | repeat constructor]]|].
  all: try discriminate.
  all: intros _; found.
Qed.

(** C7: in every run the calls of the stages come in the order sync,
    checkout, load, feed writes, each of the first three at most once; a
    call is made only after every call before it has returned; every feed
    write comes after a load that returned, and every load after a
    checkout that returned. *)
Theorem stages_run_in_order max_str_digits (env : Env) date path fetch
  xz_preset feed_name :
  let tr := snd (run env [] (cli max_str_digits date path fetch xz_preset feed_name)) in
  StronglySorted in_order tr
  /\ only_last_may_raise tr
  /\ (forall pre e post,
        tr = (pre ++ e :: post)%list -> stage e = Some 4%nat ->
        exists ts db, In (DidLoad ts (Returns db)) pre)
  /\ (forall pre e post,
        tr = (pre ++ e :: post)%list -> stage e = Some 3%nat ->
        exists ts, In (DidCheckout ts (Returns tt)) pre).
Proof.
  cbv zeta.
  pose proof (cli_follows env max_str_digits date path fetch xz_preset feed_name) as H.
  split; [eapply follows_sorted; eassumption|].
  split; [eapply follows_only_last_may_raise; eassumption|].
  split; intros pre e post Htr Hs;
    destruct (follows_preceded _ _ pre e post H Htr) as [H4 H3].
  - destruct (H4 Hs) as [[=]|?]; assumption.
  - destruct (H3 Hs) as [[=]|?]; assumption.
Qed.

(** C9: every name passed to the feed writer passes validation, on the
    single-feed path and on the all-feeds path, as long as the timestamp of
    the loaded database has a year a date can have. *)
Theorem written_names_are_valid max_str_digits (env : Env) date path fetch
  xz_preset feed_name :
  let tr := snd (run env [] (cli max_str_digits date path fetch xz_preset feed_name)) in
  (forall ts db, In (DidLoad ts (Returns db)) tr -> year_in_range (timestamp db)) ->
  Forall (fun name => _feed_name_is_valid max_str_digits name = true)
    (written_names tr).
Proof.
  cbv zeta. cli_cases env max_str_digits; intros Hload.
  all: try solve [repeat constructor; assumption].
  all: apply Forall_forall; intros n Hn.
  all: eapply feed_names_valid;
    [|eapply feeds_run_written_in; eassumption].
  all: eapply Hload; found.
Qed.

Lemma written_names_are_valid_witness :
  Forall (fun name => _feed_name_is_valid Py.default_max_str_digits name = true)
    (written_names
       (snd (run (quiet_env a_day []) []
               (cli Py.default_max_str_digits None "out" false 9 None)))).
Proof.
  apply (written_names_are_valid Py.default_max_str_digits
           (quiet_env a_day []) None "out" false 9 None).
  intros ts db H. vm_compute in H.
  repeat (destruct H as [H|H]; [try discriminate H|]); [|contradiction].
  injection H as <- <-. vm_compute. split; discriminate.
Defined.

Lemma str_injective (a b : Z) : Py.str a = Py.str b -> a = b.
Proof.
  intros H. pose proof (int_str 0 a) as Ha. rewrite H, int_str in Ha.
  unfold Py.exceeds_max_str_digits in Ha. rewrite !andb_false_r in Ha.
  now injection Ha.
Qed.

Lemma NoDup_app_disjoint {A} (l1 l2 : list A) :
  NoDup l1 -> NoDup l2 -> (forall x, In x l1 -> ~ In x l2) ->
  NoDup (l1 ++ l2).
Proof.
  induction 1 as [|x l1 Hx H1 IH]; intros H2 Hd; cbn; [assumption|].
  constructor.
  - rewrite in_app_iff. intros [H|H]; [contradiction|].
    apply (Hd x); [now left | assumption].
  - apply IH; [assumption|]. intros y Hy. apply Hd. now right.
Qed.

Lemma NoDup_range (lo hi : Z) : NoDup (Py.range lo hi).
Proof.
  unfold Py.range. apply Injective_map_NoDup; [|apply seq_NoDup].
  intros i j H. lia.
Qed.

Lemma NoDup_feed_names (y : Z) : NoDup (feed_names y).
Proof.
  unfold feed_names. apply NoDup_app_disjoint.
  - apply Injective_map_NoDup; [|apply NoDup_range].
    intros a b. apply str_injective.
  - repeat constructor; cbn; intuition discriminate.
  - intros name H1 H2. apply in_map_iff in H1 as (x & <- & _).
    apply str_in_iff in H2. now rewrite str_not_literal in H2.
Qed.

Lemma length_feed_names (y : Z) :
  Z.of_nat (List.length (feed_names y)) = Z.max 0 (y - 1999 + 1) + 3.
Proof.
  unfold feed_names, Py.range.
  rewrite length_app, length_map, length_map, length_seq. cbn [List.length]. lia.
Qed.

Lemma feed_names_early (y : Z) :
  y < 1999 -> feed_names y = ["all"; "recent"; "modified"].
Proof.
  intros Hy. unfold feed_names, Py.range.
  replace (Z.to_nat (y + 1 - 1999)) with 0%nat by lia. reflexivity.
Qed.

(** A run without [--feed-name] that returns has checked out and loaded a
    timestamp, and has written the feed names of the year its database
    carries. *)
Lemma all_feeds_run max_str_digits (env : Env) date path fetch xz_preset tr :
  run env [] (cli max_str_digits date path fetch xz_preset None)
  = (Returns tt, tr) ->
  exists ts db,
    In (DidCheckout ts (Returns tt)) tr
    /\ In (DidLoad ts (Returns db)) tr
    /\ match date with
       | Some d => ts = datetime_date d
       | None => In (DidToday (Returns ts)) tr
       end
    /\ written_names tr = feed_names (year (timestamp db)).
Proof.
  revert tr. cli_cases env max_str_digits; intros tr' [= E <-];
    try discriminate E; subst.
  all: do 2 eexists; split; [found|]; split; [found|];
    split; [first [reflexivity | found]|].
  all: cbn; eapply feeds_run_returned; eassumption.
Qed.

(** C2, as stated, fails: with [--date 1997-06-15] and no [--feed-name] the
    run returns after three feed writes, and (1997 - 1999 + 1) + 3 is 2. *)
Lemma all_feeds_count_before_1998 :
  fst (run (quiet_env a_day []) []
         (cli Py.default_max_str_digits (Some an_early_date) "out" false 9 None))
  = Returns tt
  /\ written_names
       (snd (run (quiet_env a_day []) []
               (cli Py.default_max_str_digits (Some an_early_date) "out" false 9
                  None)))
     = ["all"; "recent"; "modified"]
  /\ Z.of_nat (List.length (written_names
       (snd (run (quiet_env a_day []) []
               (cli Py.default_max_str_digits (Some an_early_date) "out" false 9
                  None)))))
     <> (dt_year an_early_date - 1999 + 1) + 3.
Proof. vm_compute. repeat split; discriminate. Qed.

(** C2, amended: a run without [--feed-name] that returns, on a database
    that exposes the timestamp it was loaded for, has written one feed per
    name in this order: every year from 1999 through the year of the
    snapshot timestamp, then [all], [recent], [modified].  These are
    max(0, year - 1999 + 1) + 3 feed writes, under names all different. *)
Theorem all_feeds_written max_str_digits (env : Env) date path fetch
  xz_preset tr :
  run env [] (cli max_str_digits date path fetch xz_preset None)
  = (Returns tt, tr) ->
  (forall ts db, In (DidLoad ts (Returns db)) tr -> timestamp db = ts) ->
  exists ts,
    In (DidCheckout ts (Returns tt)) tr
    /\ match date with
       | Some d => ts = datetime_date d
       | None => In (DidToday (Returns ts)) tr
       end
    /\ written_names tr = feed_names (year ts)
    /\ Z.of_nat (List.length (written_names tr))
       = Z.max 0 (year ts - 1999 + 1) + 3
    /\ NoDup (written_names tr).
Proof.
  intros Hrun Hexposes.
  destruct (all_feeds_run _ _ _ _ _ _ _ Hrun) as (ts & db & Hc & Hl & Hd & Hw).
  rewrite (Hexposes ts db Hl) in Hw. exists ts. rewrite Hw.
  repeat split; try assumption.
  - apply length_feed_names.
  - apply NoDup_feed_names.
Qed.

Lemma all_feeds_written_witness :
  exists ts,
    In (DidCheckout ts (Returns tt))
      (snd (run (quiet_env a_day []) []
              (cli Py.default_max_str_digits None "out" false 9 None)))
    /\ In (DidToday (Returns ts))
         (snd (run (quiet_env a_day []) []
                 (cli Py.default_max_str_digits None "out" false 9 None)))
    /\ written_names
         (snd (run (quiet_env a_day []) []
                 (cli Py.default_max_str_digits None "out" false 9 None)))
       = feed_names (year ts)
    /\ Z.of_nat (List.length (written_names
         (snd (run (quiet_env a_day []) []
                 (cli Py.default_max_str_digits None "out" false 9 None)))))
       = Z.max 0 (year ts - 1999 + 1) + 3
    /\ NoDup (written_names
         (snd (run (quiet_env a_day []) []
                 (cli Py.default_max_str_digits None "out" false 9 None)))).
Proof.
  apply (all_feeds_written Py.default_max_str_digits (quiet_env a_day [])
           None "out" false 9).
  - reflexivity.
  - intros ts db H. vm_compute in H.
    repeat (destruct H as [H|H]; [try discriminate H|]); [|contradiction].
    now injection H as <- <-.
Defined.

(** C10: a run without [--feed-name] that returns, on a database that
    exposes the timestamp it was loaded for, with a snapshot year before
    1999, has written no feed of a year: its feed writes are exactly the
    three for [all], [recent] and [modified]. *)
Theorem early_snapshot_writes_three max_str_digits (env : Env) date path
  fetch xz_preset tr :
  run env [] (cli max_str_digits date path fetch xz_preset None)
  = (Returns tt, tr) ->
  (forall ts db, In (DidLoad ts (Returns db)) tr -> timestamp db = ts) ->
  (forall ts r, In (DidCheckout ts r) tr -> year ts < 1999) ->
  written_names tr = ["all"; "recent"; "modified"]
  /\ List.length (written_names tr) = 3%nat.
Proof.
  intros Hrun Hexposes Hearly.
  destruct (all_feeds_run _ _ _ _ _ _ _ Hrun) as (ts & db & Hc & Hl & _ & Hw).
  rewrite (Hexposes ts db Hl) in Hw.
  rewrite Hw, feed_names_early by (eapply Hearly; eassumption).
  split; reflexivity.
Qed.

Lemma early_snapshot_writes_three_witness :
  written_names
    (snd (run (quiet_env a_day []) []
            (cli Py.default_max_str_digits (Some an_early_date) "out" false 9
               None)))
  = ["all"; "recent"; "modified"]
  /\ List.length (written_names
       (snd (run (quiet_env a_day []) []
               (cli Py.default_max_str_digits (Some an_early_date) "out" false 9
                  None))))
     = 3%nat.
Proof.
  apply (early_snapshot_writes_three Py.default_max_str_digits
           (quiet_env a_day []) (Some an_early_date) "out" false 9).
  - reflexivity.
  - intros ts db H. vm_compute in H.
    repeat (destruct H as [H|H]; [try discriminate H|]); [|contradiction].
    now injection H as <- <-.
  - intros ts r H. vm_compute in H.
    repeat (destruct H as [H|H]; [try discriminate H|]); [|contradiction].
    injection H as <- _. reflexivity.
Defined.

(** ** Further properties of the runs *)

Section Guards.

Lemma guarded_sound (p q : Entry -> bool) (tr : list Entry) :
  guarded p q tr = true ->
  forall pre c post,
    tr = (pre ++ c :: post)%list -> q c = true ->
    Exists (fun c' => p c' = true) pre.
Proof.
  induction tr as [|a tr IH]; intros H pre c post Htr Hq.
  - destruct pre; discriminate.
  - cbn in H. apply andb_true_iff in H as [Hqa H].
    destruct pre as [|a' pre]; cbn in Htr; injection Htr as -> ->.
    + rewrite Hq in Hqa. discriminate.
    + apply orb_true_iff in H as [H|H].
      * now apply Exists_cons_hd.
      * apply Exists_cons_tl. eapply IH; eauto.
Qed.

Lemma announced_sound (tr : list Entry) : forall last pre c post message,
  announced last tr ->
  tr = (pre ++ c :: post)%list -> announcement c = Some message ->
  (pre = [] /\ last = Some (DidEcho message (Returns tt)))
  \/ exists pre', pre = (pre' ++ [DidEcho message (Returns tt)])%list.
Proof.
  induction tr as [|a tr IH]; intros last pre c post message H Htr Hc.
  - destruct pre; discriminate.
  - destruct H as [Ha H].
    destruct pre as [|a' pre]; cbn in Htr; injection Htr as -> ->.
    + left. rewrite Hc in Ha. auto.
    + right. destruct (IH _ _ _ _ _ H eq_refl Hc) as [[-> [= ->]] | [pre' ->]].
      * now exists [].
      * now exists (a' :: pre').
Qed.

Context {path : Path} {db : CveDatabase} {xz_preset : Z}.

Lemma feeds_run_announced names res tr :
  feeds_run path db xz_preset names res tr -> forall last, announced last tr.
Proof. induction 1; intros last; cbn; auto. Qed.

Lemma feeds_run_write names res tr d db' n x r :
  feeds_run path db xz_preset names res tr ->
  In (DidWrite d db' n x r) tr ->
  d = path /\ db' = db /\ x = xz_preset /\ In n names.
Proof.
  induction 1 as [|name names e|name names e|name names res tr H IH]; cbn;
    intros Hin.
  - contradiction.
  - destruct Hin as [[=]|[]].
  - destruct Hin as [[=]|[[= <- <- <- <- <-]|[]]]. auto.
  - destruct Hin as [[=]|[[= <- <- <- <- <-]|Hin]]; [auto|].
    destruct (IH Hin) as (? & ? & ? & ?). auto.
Qed.

Lemma feeds_run_raised names res tr :
  feeds_run path db xz_preset names res tr ->
  (forall c x, In c tr -> raised c = Some x -> res = Raises x)
  /\ (res = Returns tt -> Forall (fun c => returned c = true) tr)
  /\ (forall x, res = Raises x -> exists c, In c tr /\ raised c = Some x).
Proof.
  induction 1 as [|name names e|name names e|name names res tr H (IH1 & IH2 & IH3)].
  - repeat split; [intros c x [] | constructor | discriminate].
  - repeat split.
    + intros c x [<-|[]] [= <-]. reflexivity.
    + discriminate.
    + intros x [= <-]. eexists. split; [now left | reflexivity].
  - repeat split.
    + intros c x [<-|[<-|[]]] [= <-]. reflexivity.
    + discriminate.
    + intros x [= <-]. eexists. split; [right; now left | reflexivity].
  - repeat split.
    + intros c x [<-|[<-|Hin]]; [discriminate | discriminate | eauto].
    + intros Hres. repeat constructor. auto.
    + intros x Hres. destruct (IH3 x Hres) as (c & Hc & Hr).
      exists c. split; [right; now right | assumption].
Qed.

End Guards.

(** X1: when [--feed-name] is given and the run returns, the name passed
    validation and exactly one feed was written: under the name as it was
    given, into the output path, from the database that was loaded, with
    the given preset. *)
Theorem single_feed_written max_str_digits (env : Env) date path fetch
  xz_preset name tr :
  run env [] (cli max_str_digits date path fetch xz_preset (Some name))
  = (Returns tt, tr) ->
  _feed_name_is_valid max_str_digits name = true
  /\ written_names tr = [name]
  /\ exists ts db,
       In (DidLoad ts (Returns db)) tr
       /\ In (DidWrite path db name xz_preset (Returns tt)) tr.
Proof.
  revert tr.
  destruct date as [date|], fetch,
    (_feed_name_is_valid max_str_digits name) eqn:V;
    unfold cli; rewrite V; cbn; repeat answer env;
    intros tr H; try discriminate H; injection H as <-.
  all: split; [reflexivity|]; split; [reflexivity|].
  all: do 2 eexists; split; found.
Qed.

Lemma single_feed_written_witness :
  _feed_name_is_valid Py.default_max_str_digits " 2_000" = true
  /\ written_names
       (snd (run (quiet_env a_day []) []
               (cli Py.default_max_str_digits None "out" false 9 (Some " 2_000"))))
     = [" 2_000"]
  /\ exists ts db,
       In (DidLoad ts (Returns db))
         (snd (run (quiet_env a_day []) []
                 (cli Py.default_max_str_digits None "out" false 9 (Some " 2_000"))))
       /\ In (DidWrite "out" db " 2_000" 9 (Returns tt))
            (snd (run (quiet_env a_day []) []
                    (cli Py.default_max_str_digits None "out" false 9
                       (Some " 2_000")))).
Proof.
  apply (single_feed_written Py.default_max_str_digits (quiet_env a_day [])
           None "out" false 9 " 2_000").
  reflexivity.
Defined.

(** X2: every feed write of a run goes into the output path, with the
    given preset, from a database that a load of this run returned; its
    name is the given feed name, or without one a name of the feed names of
    the database's year. *)
Theorem writes_use_given_arguments max_str_digits (env : Env) date path fetch
  xz_preset feed_name :
  let tr := snd (run env [] (cli max_str_digits date path fetch xz_preset feed_name)) in
  forall d db n x r,
    In (DidWrite d db n x r) tr ->
    d = path /\ x = xz_preset
    /\ (exists ts, In (DidLoad ts (Returns db)) tr)
    /\ match feed_name with
       | Some name => n = name
       | None => In n (feed_names (year (timestamp db)))
       end.
Proof.
  cbv zeta. cli_cases env max_str_digits; intros d db n x r' H; cbn in H.
  all: repeat (destruct H as [H|H]; [try discriminate H|]);
    try contradiction.
  all: try solve [injection H as <- <- <- <- <-; repeat split;
                  try reflexivity; eexists; found].
  all: match goal with
       | F : feeds_run _ _ _ _ _ _ |- _ =>
           destruct (feeds_run_write _ _ _ _ _ _ _ _ F H) as (-> & -> & -> & Hn)
       end.
  all: repeat split; try exact Hn; eexists; found.
Qed.

Lemma writes_use_given_arguments_witness :
  "out" = "out" /\ 9 = 9
  /\ (exists ts,
        In (DidLoad ts (Returns {| timestamp := a_day; records := [] |}))
          (snd (run (quiet_env a_day []) []
                  (cli Py.default_max_str_digits None "out" false 9 None))))
  /\ In "2000" (feed_names (year (timestamp {| timestamp := a_day; records := [] |}))).
Proof.
  apply (writes_use_given_arguments Py.default_max_str_digits
           (quiet_env a_day []) None "out" false 9 None
           "out" {| timestamp := a_day; records := [] |} "2000" 9 (Returns tt)).
  vm_compute. tauto.
Defined.

(** X3: the output directory is created only at the output path, only
    when that path was found absent or empty, and only when the feed name,
    if one was given, passed validation; and no call of a stage is made
    before the directory has been created. *)
Theorem directory_created_before_stages max_str_digits (env : Env) date path
  fetch xz_preset feed_name :
  let tr := snd (run env [] (cli max_str_digits date path fetch xz_preset feed_name)) in
  (forall p r,
     In (DidMkdir p r) tr ->
     p = path
     /\ (In (DidExists path (Returns false)) tr
         \/ In (DidIterdir path (Returns [])) tr)
     /\ match feed_name with
        | Some name => _feed_name_is_valid max_str_digits name = true
        | None => True
        end)
  /\ (forall pre c post,
        tr = (pre ++ c :: post)%list -> is_stage c = true ->
        Exists (fun c' => created c' = true) pre).
Proof.
  cbv zeta.
  assert (guarded created is_stage
            (snd (run env [] (cli max_str_digits date path fetch xz_preset feed_name)))
          = true) as Hguard
    by (cli_cases env max_str_digits; reflexivity).
  split; [|apply guarded_sound; exact Hguard]. clear Hguard.
  cli_cases env max_str_digits; intros dir r' H; in_trace H.
  all: injection H as <- _; repeat split; try assumption;
    first [left; found | right; found].
Qed.

(** X4: an error ends the run with itself: when a call raises, [cli]
    raises the same exception; a run that returns has seen every call
    return; and the exception of a run is the one a call of its trace
    raised, or one of the two usage errors of [cli]. *)
Theorem errors_end_the_run max_str_digits (env : Env) date path fetch
  xz_preset feed_name :
  let res := fst (run env [] (cli max_str_digits date path fetch xz_preset feed_name)) in
  let tr := snd (run env [] (cli max_str_digits date path fetch xz_preset feed_name)) in
  (forall c x, In c tr -> raised c = Some x -> res = Raises x)
  /\ (res = Returns tt -> Forall (fun c => returned c = true) tr)
  /\ (forall x,
        res = Raises x ->
        (exists c, In c tr /\ raised c = Some x)
        \/ x = ClickException (not_empty_message path)
        \/ exists name,
             feed_name = Some name
             /\ _feed_name_is_valid max_str_digits name = false
             /\ x = ClickException (invalid_feed_name_message name)).
Proof.
  cbv zeta.
  assert (forall x,
            fst (run env [] (cli max_str_digits date path fetch xz_preset feed_name))
            = Raises x ->
            Exists (fun c => raised c = Some x)
              (snd (run env [] (cli max_str_digits date path fetch xz_preset
                                  feed_name)))
            \/ x = ClickException (not_empty_message path)
            \/ exists name,
                 feed_name = Some name
                 /\ _feed_name_is_valid max_str_digits name = false
                 /\ x = ClickException (invalid_feed_name_message name)) as H3.
  { cli_cases env max_str_digits; intros x Hres; try discriminate Hres.
    all: try (injection Hres as <-).
    all: first
      [ left; occurs
      | right; left; reflexivity
      | right; right; eexists; repeat split; eassumption
      | left; repeat apply Exists_cons_tl; apply Exists_exists;
        eapply feeds_run_raised; eauto ]. }
  split; [|split].
  - clear H3. cli_cases env max_str_digits.
    all: intros c x H Hr; cbn in H;
      repeat (destruct H as [H|H];
              [subst c; cbn in Hr; try discriminate Hr;
               try (injection Hr as <-; reflexivity)|]);
      try contradiction.
    all: eapply feeds_run_raised; eauto.
  - clear H3. cli_cases env max_str_digits.
    all: intros Hres; try discriminate Hres; repeat (constructor; [reflexivity|]).
    all: try constructor.
    all: eapply feeds_run_raised; eauto.
  - intros x Hres. destruct (H3 x Hres) as [H|H]; [left | now right].
    now apply Exists_exists in H.
Qed.

(** X5: with [--fetch], whatever [--date], a sync call is made unless an
    error has ended the run before the first stage, and every checkout
    comes after a sync that returned. *)
Theorem fetch_flag_forces_sync max_str_digits (env : Env) date path xz_preset
  feed_name :
  let res := fst (run env [] (cli max_str_digits date path true xz_preset feed_name)) in
  let tr := snd (run env [] (cli max_str_digits date path true xz_preset feed_name)) in
  (Exists (fun c => is_fetch c = true) tr
   \/ (exists e, res = Raises e) /\ Forall (fun c => stage c = None) tr)
  /\ (forall pre c post,
        tr = (pre ++ c :: post)%list -> is_checkout c = true ->
        Exists (fun c' => synced c' = true) pre).
Proof.
  cbv zeta. split.
  - cli_cases env max_str_digits.
    all: first [left; occurs
               | right; split; [eexists; reflexivity | repeat constructor]].
  - apply guarded_sound. cli_cases env max_str_digits; reflexivity.
Qed.

(** X6: with [--date], whatever [--fetch], the clock is never read, and
    every checkout and every load is made for the date component of the
    given datetime. *)
Theorem explicit_date_is_the_snapshot max_str_digits (env : Env) date path
  fetch xz_preset feed_name :
  let tr := snd (run env [] (cli max_str_digits (Some date) path fetch xz_preset feed_name)) in
  Forall (fun c => is_today c = false) tr
  /\ (forall ts r, In (DidCheckout ts r) tr -> ts = datetime_date date)
  /\ (forall ts r, In (DidLoad ts r) tr -> ts = datetime_date date).
Proof.
  cbv zeta. cli_cases env max_str_digits.
  all: split;
    [repeat (constructor; [reflexivity|]);
     first [constructor
           | eapply Forall_impl; [|eapply feeds_run_calls; eassumption];
             intros [] E; (reflexivity || discriminate E)]|].
  all: split; intros ts r' H; in_trace H; now injection H as <- <-.
Qed.

(** X7: without [--feed-name], whether the run returns or an error ends
    it, the feed writes made so far are the first ones of the feed names of
    the loaded database's year, in order. *)
Theorem feed_writes_are_a_prefix max_str_digits (env : Env) date path fetch
  xz_preset :
  let tr := snd (run env [] (cli max_str_digits date path fetch xz_preset None)) in
  forall ts db,
    In (DidLoad ts (Returns db)) tr ->
    exists later,
      feed_names (year (timestamp db)) = (written_names tr ++ later)%list.
Proof.
  cbv zeta. cli_cases env max_str_digits; intros ts db H; in_trace H.
  all: injection H as <- <-.
  all: try (eexists; reflexivity).
  all: destruct (feeds_run_written _ _ _ Hfeeds) as (later & E & _).
  all: exists later; exact E.
Qed.

Lemma feed_writes_are_a_prefix_witness :
  exists later,
    feed_names (year (timestamp {| timestamp := a_day; records := [] |}))
    = (written_names
         (snd (run (full_disk_env a_day "2000") []
                 (cli Py.default_max_str_digits None "out" false 9 None)))
       ++ later)%list.
Proof.
  apply (feed_writes_are_a_prefix Py.default_max_str_digits
           (full_disk_env a_day "2000") None "out" false 9 a_day).
  vm_compute. tauto.
Defined.

(** X8: every sync, every checkout and every feed write comes right after
    the [click.echo] of its message, which returned: "Fetching repository",
    "Checking out repository for timestamp" with the date, "Creating ...
    archive" with the feed name. *)
Theorem calls_are_announced max_str_digits (env : Env) date path fetch
  xz_preset feed_name :
  let tr := snd (run env [] (cli max_str_digits date path fetch xz_preset feed_name)) in
  forall pre c post message,
    tr = (pre ++ c :: post)%list -> announcement c = Some message ->
    exists pre', pre = (pre' ++ [DidEcho message (Returns tt)])%list.
Proof.
  cbv zeta.
  assert (announced None
            (snd (run env [] (cli max_str_digits date path fetch xz_preset
                                feed_name)))) as H.
  { cli_cases env max_str_digits; cbn; repeat split.
    all: eapply feeds_run_announced; eassumption. }
  intros pre c post message Htr Hc.
  destruct (announced_sound _ _ _ _ _ _ H Htr Hc) as [[_ [=]] | Hpre].
  exact Hpre.
Qed.

Lemma calls_are_announced_witness :
  exists pre',
    [DidExists "out" (Returns false); DidMkdir "out" (Returns tt);
     DidToday (Returns a_day); DidEcho "Fetching repository" (Returns tt)]
    = (pre' ++ [DidEcho "Fetching repository" (Returns tt)])%list.
Proof.
  apply (calls_are_announced Py.default_max_str_digits (quiet_env a_day [])
           None "out" false 9 (Some "2000")
           [DidExists "out" (Returns false); DidMkdir "out" (Returns tt);
            DidToday (Returns a_day); DidEcho "Fetching repository" (Returns tt)]
           (DidFetch (Returns tt))
           [DidEcho "Checking out repository for timestamp 2001-03-09" (Returns tt);
            DidCheckout a_day (Returns tt);
            DidLoad a_day (Returns {| timestamp := a_day; records := [] |});
            DidEcho "Creating 2000 archive" (Returns tt);
            DidWrite "out" {| timestamp := a_day; records := [] |} "2000" 9
              (Returns tt)]);
    reflexivity.
Defined.

(** ** Further properties of feed name validation *)

Lemma scan_digits_nonneg (s : string) : forall p acc n v k rest,
  0 <= acc -> Py.scan_digits p acc n s = Some (v, k, rest) -> 0 <= v.
Proof.
  induction s as [|c s IH]; intros p acc n v k rest Hacc H; cbn [Py.scan_digits] in H.
  - destruct p; try discriminate H. now injection H as <- _ _.
  - destruct (Py.is_underscore c).
    + destruct p; try discriminate H. eapply IH; eassumption.
    + destruct (Py.digit_value c) as [d|] eqn:Hd.
      * apply digit_value_bounds in Hd as [_ ->].
        eapply IH; [|eassumption]. lia.
      * destruct p; try discriminate H. now injection H as <- _ _.
Qed.

(** X9: no name that starts with a minus sign passes validation, whatever
    follows the sign. *)
Theorem minus_sign_is_rejected (max_str_digits : nat) (s : string) :
  _feed_name_is_valid max_str_digits (String "-"%char s) = false.
Proof.
  unfold _feed_name_is_valid.
  change (Py.str_in (String "-"%char s) ["all"; "recent"; "modified"])
    with false.
  cbv beta iota. unfold Py.int.
  change (Py.lstrip (String "-"%char s)) with (String "-"%char s).
  change (Py.split_sign (String "-"%char s)) with (-1, s).
  cbv beta iota.
  destruct (Py.scan_digits Py.Start 0 0 s) as [[[v k] rest]|] eqn:E;
    [|reflexivity].
  destruct (Py.exceeds_max_str_digits _ _); [reflexivity|].
  destruct (Py.lstrip rest); [|reflexivity].
  apply scan_digits_nonneg in E; [|lia]. apply Z.leb_gt. lia.
Qed.

(** X10: white space in front of a name is skipped by [int] but not by the
    comparison with the three literals: such a name passes validation
    exactly when [int] reads the rest as an integer of at least 1999. *)
Theorem leading_space_is_skipped (max_str_digits : nat) (c : ascii)
  (s : string) :
  Py.is_space c = true ->
  _feed_name_is_valid max_str_digits (String c s)
  = match Py.int max_str_digits s with
    | Some year => 1999 <=? year
    | None => false
    end.
Proof.
  intros Hc. unfold _feed_name_is_valid.
  assert (Py.str_in (String c s) ["all"; "recent"; "modified"] = false) as ->.
  { destruct (Py.str_in _ _) eqn:E; [|reflexivity].
    apply str_in_iff in E. cbn in E.
    destruct E as [E|[E|[E|[]]]]; injection E as <- _; discriminate Hc. }
  unfold Py.int. cbn [Py.lstrip]. now rewrite Hc.
Qed.

Lemma leading_space_is_skipped_witness :
  _feed_name_is_valid Py.default_max_str_digits " all" = false
  /\ _feed_name_is_valid Py.default_max_str_digits " 2000" = true.
Proof.
  split.
  - exact (leading_space_is_skipped Py.default_max_str_digits " "%char "all"
             eq_refl).
  - exact (leading_space_is_skipped Py.default_max_str_digits " "%char "2000"
             eq_refl).
Defined.

(** X11: the feeds of the years are named by four digits: for every year
    the loop of [_write_all_feeds] can reach, from 1999 through [MAXYEAR],
    the name [str(year)] has four characters, all of them digits. *)
Theorem year_names_have_four_digits (y : Z) :
  1999 <= y <= MAXYEAR ->
  String.length (Py.str y) = 4%nat /\ all_digits (Py.str y).
Proof.
  unfold MAXYEAR. intros Hy. unfold Py.str.
  replace (y <? 0) with false by (symmetry; apply Z.ltb_ge; lia).
  split; [|apply digits_onto_all_digits; [lia | exact I]].
  unfold Py.digits.
  assert (9 <= Z.log2 y) as Hlog
    by (change 9 with (Z.log2 1000); apply Z.log2_le_mono; lia).
  destruct (Z.to_nat (Z.log2 y)) as [|[|[|f]]] eqn:E; try lia.
  cbn [Py.digits_onto].
  assert (y / 10 <> 0 /\ y / 10 / 10 <> 0 /\ y / 10 / 10 / 10 <> 0
          /\ y / 10 / 10 / 10 / 10 = 0) as (H1 & H2 & H3 & H4).
  { rewrite !Z.div_div by lia. cbn [Z.mul Pos.mul].
    repeat split; try (intros H; apply Z.div_small_iff in H; lia).
    apply Z.div_small. lia. }
  apply Z.eqb_neq in H1, H2, H3. apply Z.eqb_eq in H4.
  now rewrite H1, H2, H3, H4.
Qed.

Lemma year_names_have_four_digits_witness :
  String.length (Py.str 2026) = 4%nat /\ all_digits (Py.str 2026).
Proof.
  apply (year_names_have_four_digits 2026). unfold MAXYEAR. lia.
Defined.
